(** * The external mouse store and its two accessors

    A shallow embedding of [src/main.tsx] (the entry point and, after it,
    the hooks module with [createExternalStore], [useMousePosition] and
    [useSyncMousePosition]).

    JavaScript runs the code on one thread and to completion, so every
    function is a state transformer over a [World] holding the mutable
    objects the code touches; a function either completes normally or
    throws.  Listener functions are compared by identity (that is what
    [Set] does), so a listener is represented by its identity. *)

From Stdlib Require Import ZArith.
From stdpp Require Import base gmap sets list strings.

Local Open Scope Z_scope.

(** ** Values *)

(** Identity of a [() => void] function object. *)
Definition Listener := nat.

(** Identity of a DOM element. *)
Definition Element := nat.

(** Of a [MouseEvent] the code reads [clientX] only; it is a whole number
    of CSS pixels. *)
Record MouseEvent := mkMouseEvent { clientX : Z }.

(** The object literal [{ x: 0 }]. *)
Record Data := mkData { x : Z }.

(** ** The world *)

Record World := mkWorld {
  (** [const data = { x: 0 }]: the one object the store owns *)
  data : Data;
  (** [const listeners: Set<Listener> = new Set()] *)
  listeners : gset Listener;
  (** whether [callback] is in the window's list of mousemove listeners *)
  mousemove : bool;
  (** every call of a listener function so far, oldest first *)
  invoked : list Listener;
  (** the elements of the page by their id, for [document.getElementById] *)
  document : gmap string Element;
  (** the containers into which a React root has rendered, oldest first *)
  rendered : list Element
}.

Definition set_data (d : Data) (w : World) : World :=
  mkWorld d (listeners w) (mousemove w) (invoked w) (document w) (rendered w).

Definition set_listeners (ls : gset Listener) (w : World) : World :=
  mkWorld (data w) ls (mousemove w) (invoked w) (document w) (rendered w).

Definition set_mousemove (b : bool) (w : World) : World :=
  mkWorld (data w) (listeners w) b (invoked w) (document w) (rendered w).

Definition set_invoked (cs : list Listener) (w : World) : World :=
  mkWorld (data w) (listeners w) (mousemove w) cs (document w) (rendered w).

Definition set_rendered (es : list Element) (w : World) : World :=
  mkWorld (data w) (listeners w) (mousemove w) (invoked w) (document w) es.

(** ** Computations that may throw *)

Inductive Completion (A : Type) : Type :=
| Normal (a : A)
| Throw (message : string).

Arguments Normal {A} a.
Arguments Throw {A} message.

Definition JS (A : Type) : Type := World → Completion A * World.

#[global] Instance JS_ret : MRet JS := λ A a w, (Normal a, w).

#[global] Instance JS_bind : MBind JS := λ A B k m w,
  match m w with
  | (Normal a, w') => k a w'
  | (Throw e, w') => (Throw e, w')
  end.

#[global] Instance JS_throw : MThrow string JS := λ A e w, (Throw e, w).

Definition gets {A : Type} (f : World → A) : JS A := λ w, (Normal (f w), w).

Definition modify (f : World → World) : JS unit := λ w, (Normal (), f w).

(** The world a computation leaves behind. *)
Definition after {A : Type} (m : JS A) (w : World) : World := (m w).2.

(** The listener calls a computation makes when started in [w]. *)
Definition invoked_by {A : Type} (m : JS A) (w : World) : list Listener :=
  drop (length (invoked w)) (invoked (after m w)).

(** Calling a listener function: all the store can see of it is that the
    call happened. *)
Definition call_listener (l : Listener) : JS unit :=
  modify (λ w, set_invoked (invoked w ++ [l]) w).

(** ** The built-in [Set], as far as the store uses it *)

Module JSSet.

(** [s.add(v)]: nothing changes when [v] is already a member. *)
Definition add (v : Listener) (s : gset Listener) : gset Listener :=
  {[ v ]} ∪ s.

(** [s.delete(v)]: the set without [v], and whether [v] was a member.
    Deleting an absent value is not an error. *)
Definition delete (v : Listener) (s : gset Listener) : gset Listener * bool :=
  (s ∖ {[ v ]}, bool_decide (v ∈ s)).

(** [s.clear()] *)
Definition clear (s : gset Listener) : gset Listener := ∅.

End JSSet.

(** ** [createExternalStore] *)

(** The arrow function [subscribe] returns; it closes over [listener]. *)
Inductive Handle : Set := Unsubscribe (listener : Listener).

(** A reference to the [data] object: the getter hands out the object
    itself, not a copy. *)
Inductive Ref : Set := DataRef.

(** [const callback = (event) => { data.x = event.clientX; }] *)
Definition callback (event : MouseEvent) : JS unit :=
  modify (set_data (mkData (clientX event))).

(** [window.addEventListener("mousemove", callback)] *)
Definition addEventListener : JS unit := modify (set_mousemove true).

(** [window.removeEventListener("mousemove", callback)] *)
Definition removeEventListener : JS unit := modify (set_mousemove false).

(** The window delivers a mousemove event: it calls [callback] if it is
    registered, and nothing of this program otherwise. *)
Definition dispatch (event : MouseEvent) : JS unit :=
  registered ← gets mousemove;
  if registered : bool then callback event else mret ().

(** The body of [createExternalStore]; the module calls it once
    ([const store = createExternalStore()]), so the world holds the
    variables of that one call. *)
Definition createExternalStore : JS unit :=
  modify (set_data (mkData 0));;
  modify (set_listeners ∅);;
  addEventListener.

(** [get value() { return data; }] *)
Definition value : JS Ref := mret DataRef.

(** Reading the property [x] through a reference. *)
Definition get_x (r : Ref) : JS Z :=
  match r with DataRef => gets (λ w, x (data w)) end.

(** [subscribe(listener) { listeners.add(listener); return () => {...}; }] *)
Definition subscribe (listener : Listener) : JS Handle :=
  modify (λ w, set_listeners (JSSet.add listener (listeners w)) w);;
  mret (Unsubscribe listener).

(** Calling the function [subscribe] returned:
    [listeners.delete(listener)], the boolean result dropped. *)
Definition call_handle (h : Handle) : JS unit :=
  match h with
  | Unsubscribe listener =>
      modify (λ w, set_listeners (JSSet.delete listener (listeners w)).1 w)
  end.

(** [destroy() { listeners.clear(); window.removeEventListener(...); }] *)
Definition destroy : JS unit :=
  modify (λ w, set_listeners (JSSet.clear (listeners w)) w);;
  removeEventListener.

(** ** The hooks *)

(** [useRef(store)]: [ref.current] is the module's store on every render,
    since nothing assigns to it; the hooks below therefore work on the
    store of the world.  [useDebugValue(ref.current, format)] labels the
    hook in the developer tools and changes nothing. *)
Definition useDebugValue : JS unit := mret ().

(** [useMousePosition]: [return ref.current.value.x] *)
Definition useMousePosition : JS Z :=
  useDebugValue;;
  r ← value;
  get_x r.

(** [const getState = useCallback(() => ref.current.value.x, [])] *)
Definition getState : JS Z :=
  r ← value;
  get_x r.

(** Modelled from the spec: [useSyncExternalStore] is imported from the
    package use-sync-external-store/shim and its code is absent.  One
    render attempt of the synchronized accessor reads
    [getCurrentValue()] and returns that value as the attempt's output;
    it subscribes only after the attempt is selected for commit, never
    while rendering, so the attempt itself does not call [subscribe]. *)
Definition useSyncExternalStore
    (subscribe : Listener → JS Handle) (getSnapshot : JS Z) : JS Z :=
  getSnapshot.

(** [useSyncMousePosition]:
    [return useSyncExternalStore(ref.current.subscribe, getState)] *)
Definition useSyncMousePosition : JS Z :=
  useDebugValue;;
  useSyncExternalStore subscribe getState.

(** ** The entry point *)

(** [document.getElementById(id)]: the element, or [null]. *)
Definition getElementById (id : string) : JS (option Element) :=
  gets (λ w, document w !! id).

(** What [ReactDOM.createRoot(container)] returns. *)
Inductive Root : Set := ReactRoot (container : Element).

Definition createRoot (container : Element) : JS Root :=
  mret (ReactRoot container).

(** [root.render(<App />)] *)
Definition render (root : Root) : JS unit :=
  match root with
  | ReactRoot container => modify (λ w, set_rendered (rendered w ++ [container]) w)
  end.

(** The body of the entry module. *)
Definition main : JS unit :=
  container ← getElementById "root";
  match container with
  | None => mthrow "Missing container"
  | Some c => root ← createRoot c; render root
  end.

(** Start of the program.  The entry module imports [App], which imports
    the components, which import the hooks module; imported modules are
    evaluated first, so the store exists before the body of the entry
    module runs. *)
Definition program : JS unit :=
  createExternalStore;;
  main.

(** ** Traces *)

(** What can happen to the store once the program is running. *)
Inductive Op : Set :=
| Read                          (* [store.value.x] *)
| Subscribe (l : Listener)      (* [store.subscribe(l)] *)
| CallHandle (h : Handle)       (* a function returned by [subscribe] is called *)
| Destroy                       (* [store.destroy()] *)
| MouseMove (event : MouseEvent) (* the window delivers a mousemove event *)
| RenderPlain                   (* a component calls [useMousePosition] *)
| RenderSync.                   (* a component calls [useSyncMousePosition] *)

Definition exec (op : Op) : JS unit :=
  match op with
  | Read => getState;; mret ()
  | Subscribe l => subscribe l;; mret ()
  | CallHandle h => call_handle h
  | Destroy => destroy
  | MouseMove event => dispatch event
  | RenderPlain => useMousePosition;; mret ()
  | RenderSync => useSyncMousePosition;; mret ()
  end.

Fixpoint run (ops : list Op) : JS unit :=
  match ops with
  | [] => mret ()
  | op :: rest => exec op;; run rest
  end.

(** The values the event handler writes into [data.x] during a trace
    started in [w], oldest first: one for every mousemove event that is
    delivered while [callback] is registered. *)
Fixpoint writes (ops : list Op) (w : World) : list Z :=
  match ops with
  | [] => []
  | op :: rest =>
      match op with
      | MouseMove event => if mousemove w then [clientX event] else []
      | _ => []
      end ++ writes rest (after (exec op) w)
  end.

(** ** The event handler in the words of the specification *)

(** "Synchronously mutates [value], then synchronously notifies every
    currently registered listener": the handler as section 4.1 words it,
    to be compared with [callback]. *)
Definition notify_all : JS unit :=
  ls ← gets (λ w, elements (listeners w));
  foldr (λ l k, call_listener l;; k) (mret ()) ls.

Definition callback_spec (event : MouseEvent) : JS unit :=
  modify (set_data (mkData (clientX event)));;
  notify_all.

(** ** Worlds to try things on *)

(** The world in which the program starts, for a page with the given
    elements.  The variables of the store do not exist yet;
    [createExternalStore] sets each of them. *)
Definition boot (page : gmap string Element) : World :=
  mkWorld (mkData 0) ∅ false [] page [].

(** A page without elements, and a page whose element 1 has the id
    "root". *)
Definition empty_page : gmap string Element := ∅.

Definition root_page : gmap string Element := {[ "root" := 1%nat ]}.

(** The world right after the hooks module has been evaluated. *)
Definition started : World := after createExternalStore (boot root_page).

(** * The components and the application

    [src/components/Coordinates.tsx] and [src/App.tsx]. *)

(** ** The clock *)

(** [performance.now()] gives a time stamp, a floating point number of
    milliseconds.  Of time stamps the code uses one thing, the test
    [performance.now() - start < 50]; [under_50 now start] is that
    test. *)
Class Clock (Time : Type) := under_50 : Time → Time → bool.

(** A clock that counts whole microseconds, to run things on. *)
#[global] Instance micro_clock : Clock Z :=
  λ now start, bool_decide (now - start < 50000).

(** The world together with the time stamps [performance.now()] is going
    to give, next first. *)
Record Env (Time : Type) := mkEnv {
  world : World;
  readings : list Time
}.

Arguments mkEnv {Time} world readings.
Arguments world {Time} e.
Arguments readings {Time} e.

(** A computation that reads the clock.  The list of time stamps is
    finite: [None] says that the computation was still running when the
    time stamps were used up. *)
Definition UI (Time A : Type) : Type :=
  Env Time → option (Completion A * Env Time).

#[global] Instance UI_ret {Time : Type} : MRet (UI Time) :=
  λ A a e, Some (Normal a, e).

#[global] Instance UI_bind {Time : Type} : MBind (UI Time) := λ A B k m e,
  match m e with
  | Some (Normal a, e') => k a e'
  | Some (Throw msg, e') => Some (Throw msg, e')
  | None => None
  end.

(** A computation that does not read the clock. *)
Definition lift {Time A : Type} (m : JS A) : UI Time A := λ e,
  Some ((m (world e)).1, mkEnv (m (world e)).2 (readings e)).

(** [performance.now()] *)
Definition performance_now {Time : Type} : UI Time Time := λ e,
  match readings e with
  | [] => None
  | now :: rest => Some (Normal now, mkEnv (world e) rest)
  end.

(** ** [syncSleep] *)

(** [while (performance.now() - start < 50) { }]: each turn takes a time
    stamp; the loop ends with the first one that fails the test. *)
Fixpoint spin {Time : Type} `{Clock Time} (start : Time) (rs : list Time)
    : option (list Time) :=
  match rs with
  | [] => None
  | now :: rest => if under_50 now start then spin start rest else Some rest
  end.

(** [const start = performance.now(); while (...) { }] on the time
    stamps alone: what is left of them when the function returns. *)
Definition nap {Time : Type} `{Clock Time} (rs : list Time)
    : option (list Time) :=
  match rs with
  | [] => None
  | start :: rest => spin start rest
  end.

(** [syncSleep]: it reads the clock and touches nothing else. *)
Definition syncSleep {Time : Type} `{Clock Time} : UI Time unit := λ e,
  match nap (readings e) with
  | Some rest => Some (Normal (), mkEnv (world e) rest)
  | None => None
  end.

(** The time stamps left after [n] calls of [syncSleep] in a row. *)
Fixpoint naps {Time : Type} `{Clock Time} (n : nat) (rs : list Time)
    : option (list Time) :=
  match n with
  | O => Some rs
  | S m =>
      match nap rs with
      | Some rest => naps m rest
      | None => None
      end
  end.

(** ** What a component returns *)

Inductive ComponentType : Set :=
| TYarn
| TSnapshot
| TCoordinates
| TSyncCoordinates.

(** The two functions the buttons of [App] are given. *)
Inductive Handler : Set :=
| HTransitionHandler
| HToggle.

Inductive PropValue : Set :=
| PString (s : string)
| PAsset (name : string)        (* an imported file, [logo] *)
| PHandler (h : Handler).

#[local] Unset Elimination Schemes.

Inductive VNode : Set :=
| VText (s : string)
| VNumber (n : Z)
| VElement (tag : string) (props : list (string * PropValue))
    (children : list VNode)
| VComponent (c : ComponentType).

#[local] Set Elimination Schemes.

(** [<div><pre>x: {value}</pre></div>] *)
Definition show_x (v : Z) : VNode :=
  VElement "div" [] [VElement "pre" [] [VText "x: "; VNumber v]].

(** [Coordinates]: [useMousePosition()], [syncSleep()], the output. *)
Definition Coordinates {Time : Type} `{Clock Time} : UI Time VNode :=
  v ← lift useMousePosition;
  syncSleep;;
  mret (show_x v).

(** [SyncCoordinates]: the same around [useSyncMousePosition()]. *)
Definition SyncCoordinates {Time : Type} `{Clock Time} : UI Time VNode :=
  v ← lift useSyncMousePosition;
  syncSleep;;
  mret (show_x v).

Definition emoji (label glyph : string) : VNode :=
  VElement "span"
    [("className", PString "emoji"); ("role", PString "img");
     ("aria-label", PString label)]
    [VText glyph].

Definition Yarn : VNode := emoji "Yarn" "🧶".

Definition Snapshot : VNode := emoji "Snapshot" "📸".

(** What [App] returns.  The state value of [useState(false)] is dropped
    ([const [, setCapture] = ...]), so the output is the same on every
    render. *)
Definition App : VNode :=
  VElement "div" [("className", PString "App")]
    [VElement "header" []
       [VElement "div" []
          [VElement "img"
             [("src", PAsset "./logo.svg"); ("className", PString "App-logo");
              ("alt", PString "logo")] [];
           VElement "h1" [] [VText "Hello! Vite + React"];
           VElement "p" []
             [VText "Click "; VComponent TYarn; VText " or ";
              VComponent TSnapshot;
              VText ", and move the mouse away, as fast as you can."];
           VElement "button" [("onClick", PHandler HTransitionHandler)]
             [VComponent TYarn];
           VElement "button" [("onClick", PHandler HToggle)]
             [VComponent TSnapshot]]];
     VElement "main" []
       [VElement "section" []
          [VElement "h2" [] [VText "Regular"];
           VComponent TCoordinates; VComponent TCoordinates;
           VComponent TCoordinates];
        VElement "section" []
          [VElement "h2" [] [VText "Sync"];
           VComponent TSyncCoordinates; VComponent TSyncCoordinates;
           VComponent TSyncCoordinates]]].

(** Calling a component function. *)
Definition render_component {Time : Type} `{Clock Time} (c : ComponentType)
    : UI Time VNode :=
  match c with
  | TYarn => mret Yarn
  | TSnapshot => mret Snapshot
  | TCoordinates => Coordinates
  | TSyncCoordinates => SyncCoordinates
  end.

(** The components of a tree in document order, the order in which they
    are rendered. *)
Fixpoint components_of (v : VNode) : list ComponentType :=
  match v with
  | VText _ | VNumber _ => []
  | VElement _ _ children => flat_map components_of children
  | VComponent c => [c]
  end.

(** Rendering components one after the other, nothing in between: a
    render that is not interrupted. *)
Fixpoint render_all {Time : Type} `{Clock Time} (cs : list ComponentType)
    : UI Time (list VNode) :=
  match cs with
  | [] => mret []
  | c :: rest =>
      v ← render_component c;
      vs ← render_all rest;
      mret (v :: vs)
  end.

(** What a component shows when the stored value is [v]. *)
Definition output_of (v : Z) (c : ComponentType) : VNode :=
  match c with
  | TYarn => Yarn
  | TSnapshot => Snapshot
  | TCoordinates | TSyncCoordinates => show_x v
  end.

(** Whether a component calls [syncSleep]. *)
Definition sleeps (c : ComponentType) : bool :=
  match c with
  | TYarn | TSnapshot => false
  | TCoordinates | TSyncCoordinates => true
  end.

(** How many of the components call [syncSleep]. *)
Definition sleepers (cs : list ComponentType) : nat :=
  length (filter (λ c, sleeps c = true) cs).

(** A render of two [Coordinates] that is interrupted in between, where
    the window delivers a mousemove event. *)
Definition interrupted_pair {Time : Type} `{Clock Time} (event : MouseEvent)
    : UI Time (VNode * VNode) :=
  a ← Coordinates;
  lift (dispatch event);;
  b ← Coordinates;
  mret (a, b).

(** ** The flag of [App] *)

(** How urgent a requested re-render is. *)
Inductive Priority : Set :=
| Transition      (* low priority, may be interrupted *)
| Urgent.         (* immediate, not interrupted *)

(** The state [useState(false)] keeps for [App], and the updates that
    were requested and not yet applied, oldest first. *)
Record AppState := mkAppState {
  capture : bool;
  pending : list (Priority * (bool → bool))
}.

(** Modelled from the spec: [useState] and [startTransition] are React's
    and their code is absent.  The harness "exposes two triggers for the
    same underlying boolean toggle: one that requests a low-priority,
    interruptible re-render, and one that requests an immediate,
    non-interruptible re-render".  So a call of the setter requests an
    update at the priority in force, [startTransition] runs its argument
    at low priority, and the requested updates are applied in the order
    of the requests once React has rendered them all. *)
Definition mounted : AppState := mkAppState false [].

Definition setCapture (p : Priority) (updater : bool → bool) (s : AppState)
    : AppState :=
  mkAppState (capture s) (pending s ++ [(p, updater)]).

Definition startTransition (scope : Priority → AppState → AppState)
    : AppState → AppState :=
  scope Transition.

Definition settle (s : AppState) : AppState :=
  mkAppState (foldl (λ b u, u.2 b) (capture s) (pending s)) [].

(** [const toggle = () => setCapture((x) => !x)], called while priority
    [p] is in force. *)
Definition toggle (p : Priority) : AppState → AppState :=
  setCapture p negb.

(** [function transitionHandler() { return startTransition(toggle); }] *)
Definition transitionHandler (p : Priority) : AppState → AppState :=
  startTransition toggle.

(** A click on the button that was given handler [h]; a click is
    urgent. *)
Definition click (h : Handler) : AppState → AppState :=
  match h with
  | HTransitionHandler => transitionHandler Urgent
  | HToggle => toggle Urgent
  end.

(** The priority of the re-render a button asks for. *)
Definition asks (h : Handler) : Priority :=
  match h with
  | HTransitionHandler => Transition
  | HToggle => Urgent
  end.

(** ** Reading traces *)

(** The [clientX] of the mousemove events of a trace, in order. *)
Definition events_of (ops : list Op) : list Z :=
  omap (λ op, match op with
              | MouseMove event => Some (clientX event)
              | _ => None
              end) ops.

(** Whether a step can take listener [l] out of the set: [destroy], or a
    call of a handle of [l]. *)
Definition drops (l : Listener) (op : Op) : bool :=
  match op with
  | Destroy => true
  | CallHandle (Unsubscribe l') => bool_decide (l' = l)
  | _ => false
  end.

(** Whether a step subscribes listener [l]. *)
Definition adds (l : Listener) (op : Op) : bool :=
  match op with
  | Subscribe l' => bool_decide (l' = l)
  | _ => false
  end.

Definition is_destroy (op : Op) : bool :=
  match op with
  | Destroy => true
  | _ => false
  end.

(** * Properties *)

Ltac js_unfold :=
  unfold after, invoked_by, exec, program, main, render, createRoot,
    getElementById, useSyncMousePosition, useSyncExternalStore, getState,
    useMousePosition, useDebugValue, destroy, call_handle, subscribe, get_x,
    value, createExternalStore, dispatch, removeEventListener,
    addEventListener, callback, call_listener, modify, gets,
    JSSet.add, JSSet.delete, JSSet.clear,
    mthrow, mbind, mret, JS_throw, JS_bind, JS_ret in *.

Ltac js_simpl := js_unfold; simpl in *.

(** ** Single steps *)

Lemma exec_normal (op : Op) (w : World) : (exec op w).1 = Normal ().
Proof.
  destruct op as [ | l | [l] | | event | | ]; js_simpl; try reflexivity.
  destruct (mousemove w); reflexivity.
Qed.

Lemma exec_invoked (op : Op) (w : World) :
  invoked (after (exec op) w) = invoked w.
Proof.
  destruct op as [ | l | [l] | | event | | ]; js_simpl; try reflexivity.
  destruct (mousemove w); reflexivity.
Qed.

Lemma exec_data (op : Op) (w : World) :
  data (after (exec op) w) =
  match op with
  | MouseMove event => if mousemove w then mkData (clientX event) else data w
  | _ => data w
  end.
Proof.
  destruct op as [ | l | [l] | | event | | ]; js_simpl; try reflexivity.
  destruct (mousemove w); reflexivity.
Qed.

Lemma exec_detached (op : Op) (w : World) :
  mousemove w = false → mousemove (after (exec op) w) = false.
Proof.
  intros Hoff.
  destruct op as [ | l | [l] | | event | | ]; js_simpl; try assumption;
    try reflexivity.
  rewrite Hoff. assumption.
Qed.

(** ** Traces *)

Lemma run_cons (op : Op) (ops : list Op) (w : World) :
  run (op :: ops) w = run ops (after (exec op) w).
Proof.
  pose proof (exec_normal op w) as Hn.
  simpl. unfold mbind, JS_bind, after in *.
  destruct (exec op w) as [[[]|e] w']; simpl in *; [reflexivity|discriminate].
Qed.

Lemma after_run_cons (op : Op) (ops : list Op) (w : World) :
  after (run (op :: ops)) w = after (run ops) (after (exec op) w).
Proof. unfold after at 1 2. rewrite run_cons. reflexivity. Qed.

Lemma run_normal (ops : list Op) (w : World) : (run ops w).1 = Normal ().
Proof.
  revert w. induction ops as [|op ops IH]; intros w.
  - reflexivity.
  - rewrite run_cons. apply IH.
Qed.

Lemma run_invoked (ops : list Op) (w : World) :
  invoked (after (run ops) w) = invoked w.
Proof.
  revert w. induction ops as [|op ops IH]; intros w.
  - reflexivity.
  - rewrite after_run_cons, IH. apply exec_invoked.
Qed.

Lemma run_detached (ops : list Op) (w : World) :
  mousemove w = false → mousemove (after (run ops) w) = false.
Proof.
  revert w. induction ops as [|op ops IH]; intros w Hoff.
  - assumption.
  - rewrite after_run_cons. apply IH, exec_detached, Hoff.
Qed.

Lemma writes_detached (ops : list Op) (w : World) :
  mousemove w = false → writes ops w = [].
Proof.
  revert w. induction ops as [|op ops IH]; intros w Hoff.
  - reflexivity.
  - simpl. rewrite (IH _ (exec_detached op w Hoff)).
    destruct op; try reflexivity. rewrite Hoff. reflexivity.
Qed.

Lemma invoked_by_nil {A : Type} (m : JS A) (w : World) :
  invoked (after m w) = invoked w → invoked_by m w = [].
Proof.
  unfold invoked_by. intros ->. apply drop_all.
Qed.

Lemma getState_reads (w : World) : getState w = (Normal (x (data w)), w).
Proof. reflexivity. Qed.

Lemma useMousePosition_reads (w : World) :
  useMousePosition w = (Normal (x (data w)), w).
Proof. reflexivity. Qed.

Lemma dispatch_result (event : MouseEvent) (w : World) :
  dispatch event w =
    (Normal (),
     if mousemove w then set_data (mkData (clientX event)) w else w).
Proof. js_simpl. destruct (mousemove w); reflexivity. Qed.

Lemma dispatch_keeps_listeners (event : MouseEvent) (w : World) :
  listeners (after (dispatch event) w) = listeners w.
Proof.
  unfold after. rewrite dispatch_result. by destruct (mousemove w).
Qed.

Lemma dispatch_keeps_mousemove (event : MouseEvent) (w : World) :
  mousemove (after (dispatch event) w) = mousemove w.
Proof.
  unfold after. rewrite dispatch_result. by destruct (mousemove w) eqn:Hreg.
Qed.

Lemma dispatch_calls_nobody (event : MouseEvent) (w : World) :
  invoked_by (dispatch event) w = [].
Proof.
  apply invoked_by_nil. unfold after. rewrite dispatch_result.
  by destruct (mousemove w).
Qed.

(** ** The event handler *)

(** What the handler does to the world, whatever the world. *)
Lemma callback_sets_x (event : MouseEvent) (w : World) :
  callback event w = (Normal (), set_data (mkData (clientX event)) w).
Proof. reflexivity. Qed.

(** The handler as the specification words it calls every registered
    listener: the calls it makes are the members of the set. *)
Lemma callback_spec_invokes (event : MouseEvent) (w : World) :
  invoked_by (callback_spec event) w = elements (listeners w).
Proof.
  unfold invoked_by, after, callback_spec, notify_all.
  unfold mbind, JS_bind, modify, gets. simpl.
  set (w0 := set_data (mkData (clientX event)) w).
  change (listeners w) with (listeners w0).
  change (invoked w) with (invoked w0).
  generalize (elements (listeners w0)) as ls. clearbody w0.
  intros ls.
  assert (Hgen : ∀ v : World,
    invoked (foldr (λ l k, call_listener l;; k) (mret ()) ls v).2 =
    invoked v ++ ls).
  { induction ls as [|l ls IH]; intros v; simpl.
    - unfold mret, JS_ret. simpl. by rewrite app_nil_r.
    - unfold mbind, JS_bind, call_listener, modify. simpl.
      rewrite IH. simpl. by rewrite <- app_assoc. }
  rewrite Hgen. by rewrite drop_app_length.
Qed.

(** C1, the claim as stated fails: with the handler attached and
    listener 7 registered, a mousemove event at x = 5 updates the stored
    value to 5 and calls nobody, where the handler of the specification
    calls listener 7. *)
Lemma callback_skips_registered_listener :
  let w := after (subscribe 7%nat) started in
  let event := mkMouseEvent 5 in
  mousemove w = true ∧
  7%nat ∈ listeners w ∧
  x (data (after (dispatch event) w)) = 5 ∧
  (7%nat ∉ invoked_by (dispatch event) w) ∧
  7%nat ∈ invoked_by (callback_spec event) w.
Proof.
  simpl. split; [reflexivity|]. split; [js_simpl; set_solver|].
  split; [reflexivity|]. split.
  - js_simpl. apply not_elem_of_nil.
  - rewrite callback_spec_invokes. apply elem_of_elements.
    js_simpl. set_solver.
Qed.

(** C1, amended: for every mousemove event the window delivers, the
    handler completes normally and sets the stored value to the event's
    [clientX]; it calls no listener and leaves the listener set, the
    registration on the window and everything else as they are.  An event
    that arrives while the handler is not registered changes nothing. *)
Theorem dispatch_sets_x_and_calls_nobody (event : MouseEvent) (w : World) :
  dispatch event w =
    (Normal (),
     if mousemove w then set_data (mkData (clientX event)) w else w) ∧
  x (data (after (callback event) w)) = clientX event ∧
  listeners (after (dispatch event) w) = listeners w ∧
  mousemove (after (dispatch event) w) = mousemove w ∧
  invoked_by (callback event) w = [] ∧
  invoked_by (dispatch event) w = [].
Proof.
  split; [apply dispatch_result|]. split; [reflexivity|].
  split; [apply dispatch_keeps_listeners|].
  split; [apply dispatch_keeps_mousemove|].
  split; [by apply invoked_by_nil | apply dispatch_calls_nobody].
Qed.

(** ** Unsubscribing *)

Lemma subscribe_adds (l : Listener) (w : World) :
  subscribe l w =
    (Normal (Unsubscribe l), set_listeners ({[ l ]} ∪ listeners w) w).
Proof. reflexivity. Qed.

Lemma call_handle_removes (l : Listener) (w : World) :
  call_handle (Unsubscribe l) w =
    (Normal (), set_listeners (listeners w ∖ {[ l ]}) w).
Proof. reflexivity. Qed.

Lemma listeners_after_subscribe (l : Listener) (w : World) :
  listeners (after (subscribe l) w) = {[ l ]} ∪ listeners w.
Proof. reflexivity. Qed.

Lemma listeners_after_call_handle (l : Listener) (w : World) :
  listeners (after (call_handle (Unsubscribe l)) w) = listeners w ∖ {[ l ]}.
Proof. reflexivity. Qed.

(** Calling a handle whose listener is not registered changes nothing. *)
Lemma call_handle_absent (l : Listener) (w : World) :
  l ∉ listeners w → call_handle (Unsubscribe l) w = (Normal (), w).
Proof.
  intros Hl. rewrite call_handle_removes. destruct w as [d ls m cs doc rs].
  unfold set_listeners. simpl in *. do 2 f_equal.
  apply difference_disjoint_L, disjoint_singleton_r, Hl.
Qed.

(** C3: for a listener registered with [subscribe], the first call of the
    returned handle removes that listener and no other; a second call
    completes normally and changes nothing, so no other listener goes.  A
    mousemove event after the first call calls no listener and completes
    normally, and the handle may still be called after it, again without
    any effect. *)
Theorem unsubscribe_twice_absorbed
    (l : Listener) (event : MouseEvent) (w : World) :
  ∃ h : Handle,
    (subscribe l w).1 = Normal h ∧
    let w1 := after (subscribe l) w in
    let w2 := after (call_handle h) w1 in
    let w3 := after (dispatch event) w2 in
    (call_handle h w1).1 = Normal () ∧
    listeners w2 = listeners w1 ∖ {[ l ]} ∧
    call_handle h w2 = (Normal (), w2) ∧
    (dispatch event w2).1 = Normal () ∧
    invoked_by (dispatch event) w2 = [] ∧
    call_handle h w3 = (Normal (), w3).
Proof.
  exists (Unsubscribe l). split; [reflexivity|]. intros w1 w2 w3.
  assert (Hgone2 : l ∉ listeners w2).
  { subst w2 w1. unfold after. rewrite subscribe_adds, call_handle_removes.
    simpl. apply not_elem_of_difference. right. by apply elem_of_singleton. }
  split; [reflexivity|]. split; [reflexivity|].
  split; [apply call_handle_absent, Hgone2|].
  split; [rewrite dispatch_result; reflexivity|].
  split; [apply dispatch_calls_nobody|].
  apply call_handle_absent. subst w3.
  rewrite dispatch_keeps_listeners. exact Hgone2.
Qed.

(** ** Reading the value *)

Lemma data_ext (d1 d2 : Data) : x d1 = x d2 → d1 = d2.
Proof. destruct d1, d2. simpl. intros ->. reflexivity. Qed.

Lemma run_x (ops : list Op) (w : World) :
  x (data (after (run ops) w)) = default (x (data w)) (last (writes ops w)).
Proof.
  revert w. induction ops as [|op ops IH]; intros w.
  - reflexivity.
  - rewrite after_run_cons, IH, exec_data. simpl writes. rewrite last_app.
    destruct (last (writes ops (after (exec op) w))) as [v|]; [reflexivity|].
    destruct op as [ | l' | h | | event | | ]; try reflexivity.
    destruct (mousemove w); reflexivity.
Qed.

(** A trace that only delivers events to the attached handler writes the
    events' coordinates, in order. *)
Lemma writes_of_events (events : list MouseEvent) (w : World) :
  mousemove w = true →
  writes (MouseMove <$> events) w = clientX <$> events.
Proof.
  revert w. induction events as [|event events IH]; intros w Hon.
  - reflexivity.
  - simpl. rewrite Hon. simpl. f_equal. apply IH.
    change (after (exec (MouseMove event)) w) with (after (dispatch event) w).
    rewrite dispatch_keeps_mousemove. exact Hon.
Qed.

(** C4: after any trace, reading the value ([getState], that is the
    getter followed by [.x]) completes normally with the value the event
    handler wrote last during the trace (the value the trace started
    with, when the handler wrote nothing), and leaves the whole world, so
    the stored value and the listener set, as it was.  In particular,
    after the handler of a new store has taken a sequence of events, the
    read returns the last event's [clientX], and 0 for no event. *)
Theorem getState_returns_latest_write
    (ops : list Op) (events : list MouseEvent) (w : World) :
  let w' := after (run ops) w in
  getState w' = (Normal (default (x (data w)) (last (writes ops w))), w') ∧
  (r ← value; get_x r) w' = getState w' ∧
  data (after getState w') = data w' ∧
  listeners (after getState w') = listeners w' ∧
  (getState (after (run (MouseMove <$> events))
               (after createExternalStore w))).1
    = Normal (default 0 (last (clientX <$> events))).
Proof.
  intros w'. split.
  { rewrite getState_reads. subst w'. rewrite run_x. reflexivity. }
  do 3 (split; [reflexivity|]).
  rewrite getState_reads, run_x, writes_of_events; reflexivity.
Qed.

(** ** Who writes the value *)

(** C5: the getter, a property read, [getState], both accessors,
    [subscribe], a handle returned by [subscribe] and [destroy] all leave
    the stored value as it is; a step that changes the stored value is a
    mousemove event delivered to the attached handler, and the new value
    is that event's [clientX]. *)
Theorem value_has_one_writer
    (w : World) (l : Listener) (h : Handle) (r : Ref) (op : Op) :
  data (after value w) = data w ∧
  data (after (get_x r) w) = data w ∧
  data (after getState w) = data w ∧
  data (after useMousePosition w) = data w ∧
  data (after useSyncMousePosition w) = data w ∧
  data (after (subscribe l) w) = data w ∧
  data (after (call_handle h) w) = data w ∧
  data (after destroy w) = data w ∧
  (data (after (exec op) w) = data w ∨
   ∃ event : MouseEvent,
     op = MouseMove event ∧ mousemove w = true ∧
     data (after (exec op) w) = mkData (clientX event)).
Proof.
  repeat split; try reflexivity.
  - destruct r; reflexivity.
  - destruct h; reflexivity.
  - rewrite exec_data. destruct op as [ | l' | h' | | event | | ];
      try (left; reflexivity).
    destruct (mousemove w) eqn:Hreg; [right; by exists event | by left].
Qed.

(** ** Tearing the store down *)

(** C6: [destroy] completes normally, leaves the listener set empty and
    the handler off the window; whatever happens afterwards, the handler
    writes nothing, the stored value stays, the handler stays off and no
    listener is called. *)
Theorem destroy_cuts_off_listeners (ops : list Op) (w : World) :
  let w' := after destroy w in
  (destroy w).1 = Normal () ∧
  listeners w' = ∅ ∧
  mousemove w' = false ∧
  writes ops w' = [] ∧
  data (after (run ops) w') = data w ∧
  mousemove (after (run ops) w') = false ∧
  invoked_by (run ops) w' = [].
Proof.
  intros w'.
  assert (Hoff : mousemove w' = false) by reflexivity.
  split; [reflexivity|]. split; [reflexivity|]. split; [exact Hoff|].
  split; [apply writes_detached, Hoff|].
  split.
  { apply data_ext. rewrite run_x, (writes_detached ops w' Hoff). reflexivity. }
  split; [apply run_detached, Hoff|].
  apply invoked_by_nil, run_invoked.
Qed.

(** ** The uncoordinated accessor *)

(** C7: a render of [useMousePosition] completes normally with the value
    stored at that moment, which is what the getter followed by [.x]
    reads; the result is a function of the stored value alone (no earlier
    snapshot enters), and the render leaves the world, so the listener
    set, untouched and calls no listener. *)
Theorem useMousePosition_reads_directly (w : World) :
  useMousePosition w = (Normal (x (data w)), w) ∧
  useMousePosition w = (r ← value; get_x r) w ∧
  listeners (after useMousePosition w) = listeners w ∧
  invoked_by useMousePosition w = [].
Proof.
  split; [reflexivity|]. split; [reflexivity|]. split; [reflexivity|].
  by apply invoked_by_nil.
Qed.

(** ** Start of the program *)

(** C8: when the page has no element with the id "root", the program
    throws "Missing container" and nothing has been rendered; when it has
    one, the program completes normally and has rendered into it. *)
Theorem program_needs_container (w : World) :
  match document w !! "root" with
  | None =>
      (main w).1 = Throw "Missing container" ∧
      (program w).1 = Throw "Missing container" ∧
      rendered (after program w) = rendered w
  | Some c =>
      (main w).1 = Normal () ∧
      (program w).1 = Normal () ∧
      rendered (after program w) = rendered w ++ [c]
  end.
Proof.
  unfold program, main, getElementById, after.
  unfold mbind, JS_bind, gets, createExternalStore, addEventListener, modify.
  simpl. destruct (document w !! "root") as [c|]; simpl; done.
Qed.

(** On a page without elements the store is created (the import comes
    first) and the program stops there; on a page with the element it
    renders into element 1. *)
Example program_on_empty_page :
  program (boot empty_page) =
    (Throw "Missing container", after createExternalStore (boot empty_page)).
Proof. reflexivity. Qed.

Example program_on_root_page :
  (program (boot root_page)).1 = Normal () ∧
  rendered (after program (boot root_page)) = [1%nat].
Proof. split; reflexivity. Qed.

(** ** The first value *)

(** C9: the store is created with [x] = 0, and as long as the handler has
    written nothing, a render of either accessor returns 0. *)
Theorem accessors_start_at_zero (ops : list Op) (w : World) :
  writes ops (after createExternalStore w) = [] →
  x (data (after createExternalStore w)) = 0 ∧
  (useMousePosition (after (run ops) (after createExternalStore w))).1
    = Normal 0 ∧
  (useSyncMousePosition (after (run ops) (after createExternalStore w))).1
    = Normal 0.
Proof.
  intros Hnone. split; [reflexivity|].
  pose proof (run_x ops (after createExternalStore w)) as Hx.
  rewrite Hnone in Hx. simpl in Hx.
  split.
  - rewrite useMousePosition_reads. simpl. by rewrite Hx.
  - unfold useSyncMousePosition, useSyncExternalStore, useDebugValue.
    unfold mbind, JS_bind, mret, JS_ret. rewrite getState_reads.
    simpl. by rewrite Hx.
Qed.

(** C9 at work: nothing is written while a listener subscribes, a
    component renders, the store is destroyed and the mouse moves
    afterwards; both accessors return 0 at the end. *)
Lemma accessors_start_at_zero_witness :
  let ops :=
    [Subscribe 3%nat; RenderSync; Destroy; MouseMove (mkMouseEvent 9)] in
  writes ops started = [] ∧
  x (data started) = 0 ∧
  (useMousePosition (after (run ops) started)).1 = Normal 0 ∧
  (useSyncMousePosition (after (run ops) started)).1 = Normal 0.
Proof.
  split; [reflexivity|].
  apply (accessors_start_at_zero
    [Subscribe 3%nat; RenderSync; Destroy; MouseMove (mkMouseEvent 9)]
    (boot root_page)).
  reflexivity.
Defined.

(** ** Subscribing one listener twice *)

(** C10: the second [subscribe] of the same listener changes nothing: the
    set holds the listener once, next to the other listeners (a fresh
    store holds just that one entry).  Either returned handle removes the
    listener, after which the other handle completes normally without
    changing anything. *)
Theorem subscribe_same_listener_twice (l : Listener) (w : World) :
  ∃ h1 h2 : Handle,
    let w1 := after (subscribe l) w in
    let w2 := after (subscribe l) w1 in
    (subscribe l w).1 = Normal h1 ∧
    (subscribe l w1).1 = Normal h2 ∧
    w2 = w1 ∧
    l ∈ listeners w2 ∧
    size (listeners w2) = S (size (listeners w ∖ {[ l ]})) ∧
    size (listeners (after (subscribe l)
            (after (subscribe l) (after createExternalStore w)))) = 1%nat ∧
    (let u := after (call_handle h1) w2 in
     listeners u = listeners w ∖ {[ l ]} ∧
     call_handle h2 u = (Normal (), u)) ∧
    (let u := after (call_handle h2) w2 in
     listeners u = listeners w ∖ {[ l ]} ∧
     call_handle h1 u = (Normal (), u)).
Proof.
  exists (Unsubscribe l), (Unsubscribe l). intros w1 w2.
  assert (Hsame : w2 = w1).
  { subst w2 w1. unfold after. rewrite !subscribe_adds. simpl.
    unfold set_listeners. simpl. f_equal.
    by rewrite (assoc_L (∪)), (idemp_L (∪)). }
  assert (Hrest : listeners (after (call_handle (Unsubscribe l)) w2)
                  = listeners w ∖ {[ l ]}).
  { rewrite Hsame. subst w1. unfold after.
    rewrite subscribe_adds, call_handle_removes. simpl.
    rewrite difference_union_distr_l_L, difference_diag_L.
    apply (left_id_L ∅ (∪)). }
  assert (Hnoop : call_handle (Unsubscribe l)
                    (after (call_handle (Unsubscribe l)) w2)
                  = (Normal (), after (call_handle (Unsubscribe l)) w2)).
  { apply call_handle_absent. rewrite Hrest.
    apply not_elem_of_difference. right. by apply elem_of_singleton. }
  split; [reflexivity|]. split; [reflexivity|]. split; [exact Hsame|].
  split.
  { rewrite Hsame. subst w1. rewrite listeners_after_subscribe.
    apply elem_of_union_l. by apply elem_of_singleton. }
  split.
  { rewrite Hsame. subst w1. rewrite listeners_after_subscribe.
    by rewrite size_union_alt, size_singleton. }
  split.
  { rewrite !listeners_after_subscribe.
    change (listeners (after createExternalStore w)) with (∅ : gset Listener).
    rewrite (assoc_L (∪)), (idemp_L (∪)), (right_id_L ∅ (∪)).
    apply size_singleton. }
  split; (split; [exact Hrest | exact Hnoop]).
Qed.

(** * More about the store *)

Lemma exec_listeners (op : Op) (w : World) :
  listeners (after (exec op) w) =
  match op with
  | Subscribe l => {[ l ]} ∪ listeners w
  | CallHandle (Unsubscribe l) => listeners w ∖ {[ l ]}
  | Destroy => ∅
  | _ => listeners w
  end.
Proof.
  destruct op as [ | l | [l] | | event | | ]; try reflexivity.
  apply dispatch_keeps_listeners.
Qed.

Lemma exec_mousemove (op : Op) (w : World) :
  mousemove (after (exec op) w) =
  if is_destroy op then false else mousemove w.
Proof.
  destruct op as [ | l | [l] | | event | | ]; try reflexivity.
  apply dispatch_keeps_mousemove.
Qed.

Lemma size_union_le (X Y : gset Listener) :
  (size (X ∪ Y) ≤ size X + size Y)%nat.
Proof.
  rewrite size_union_alt. apply Nat.add_le_mono_l, subseteq_size.
  apply subseteq_difference_l. reflexivity.
Qed.

Lemma listeners_set_listeners (ls : gset Listener) (w : World) :
  listeners (set_listeners ls w) = ls.
Proof. reflexivity. Qed.

Lemma set_listeners_twice (ls ls' : gset Listener) (w : World) :
  set_listeners ls (set_listeners ls' w) = set_listeners ls w.
Proof. reflexivity. Qed.

Lemma set_listeners_same (w : World) : set_listeners (listeners w) w = w.
Proof. by destruct w. Qed.

(** X1: subscribing a listener and calling the returned handle right
    away completes normally, and gives back the world it started from
    exactly when the listener was not registered before; a listener that
    was registered before is gone afterwards. *)
Theorem subscribe_unsubscribe_round_trip (l : Listener) (w : World) :
  ((h ← subscribe l; call_handle h) w).1 = Normal () ∧
  (after (h ← subscribe l; call_handle h) w = w ↔ l ∉ listeners w) ∧
  (l ∉ listeners (after (h ← subscribe l; call_handle h) w)).
Proof.
  assert (Hrun : (h ← subscribe l; call_handle h) w =
    (Normal (), set_listeners (({[ l ]} ∪ listeners w) ∖ {[ l ]}) w))
    by reflexivity.
  unfold after. rewrite Hrun. simpl.
  split; [reflexivity|]. split; [split|].
  - intros Hsame Hin.
    apply (f_equal listeners) in Hsame. cbn [listeners set_listeners] in Hsame.
    rewrite <- Hsame in Hin. apply elem_of_difference in Hin as [_ Hnot].
    apply Hnot. by apply elem_of_singleton.
  - intros Hout.
    assert (Hls : ({[ l ]} ∪ listeners w) ∖ {[ l ]} = listeners w).
    { rewrite difference_union_distr_l_L, difference_diag_L.
      rewrite (left_id_L ∅ (∪)).
      apply difference_disjoint_L, disjoint_singleton_r, Hout. }
    rewrite Hls. apply set_listeners_same.
  - destruct w; simpl. apply not_elem_of_difference. right.
    by apply elem_of_singleton.
Qed.

(** X2: subscribing a list of listeners one after the other leaves the
    world with exactly those listeners added to the set: neither the
    order of the calls nor a repeated listener makes a difference, and
    the set grows by at most the number of calls. *)
Theorem subscribe_many (ls : list Listener) (w : World) :
  after (run (Subscribe <$> ls)) w =
    set_listeners (list_to_set ls ∪ listeners w) w ∧
  (size (listeners (after (run (Subscribe <$> ls)) w))
     ≤ length ls + size (listeners w))%nat.
Proof.
  assert (Hworld : ∀ v, after (run (Subscribe <$> ls)) v =
    set_listeners (list_to_set ls ∪ listeners v) v).
  { induction ls as [|l ls IH]; intros v.
    - rewrite list_to_set_nil, (left_id_L ∅ (∪)). symmetry.
      apply set_listeners_same.
    - rewrite fmap_cons, after_run_cons, IH.
      change (after (exec (Subscribe l)) v)
        with (set_listeners ({[ l ]} ∪ listeners v) v).
      rewrite set_listeners_twice, listeners_set_listeners.
      rewrite list_to_set_cons.
      assert (list_to_set ls ∪ ({[ l ]} ∪ listeners v)
              = {[ l ]} ∪ list_to_set ls ∪ listeners v) as ->; [|done].
      rewrite (assoc_L (∪)). f_equal. apply (comm_L (∪)). }
  split; [apply Hworld|]. rewrite Hworld, listeners_set_listeners.
  etransitivity; [apply size_union_le|].
  apply Nat.add_le_mono_r. clear. induction ls as [|l ls IH].
  - by rewrite list_to_set_nil, size_empty.
  - rewrite list_to_set_cons. etransitivity; [apply size_union_le|].
    rewrite size_singleton. simpl. lia.
Qed.

Lemma exec_keeps_listener (l : Listener) (op : Op) (w : World) :
  l ∈ listeners w → drops l op = false → l ∈ listeners (after (exec op) w).
Proof.
  intros Hin Hdrop. rewrite exec_listeners.
  destruct op as [ | l' | [l'] | | event | | ]; try done.
  - by apply elem_of_union_r.
  - simpl in Hdrop. apply bool_decide_eq_false in Hdrop.
    apply elem_of_difference. split; [done|].
    intros Heq%elem_of_singleton. by apply Hdrop.
Qed.

Lemma exec_keeps_out (l : Listener) (op : Op) (w : World) :
  l ∉ listeners w → adds l op = false → l ∉ listeners (after (exec op) w).
Proof.
  intros Hout Hadd. rewrite exec_listeners.
  destruct op as [ | l' | [l'] | | event | | ]; try done.
  - simpl in Hadd. apply bool_decide_eq_false in Hadd.
    intros [Heq%elem_of_singleton | Hin]%elem_of_union; [|done].
    by apply Hadd.
  - intros [Hin _]%elem_of_difference. done.
Qed.

(** X3: a registered listener stays registered through every trace in
    which neither a handle of that listener is called nor the store is
    destroyed; mousemove events, reads, renders and what happens to
    other listeners do not take it out. *)
Theorem registered_listener_persists
    (l : Listener) (ops : list Op) (w : World) :
  l ∈ listeners w →
  Forall (λ op, drops l op = false) ops →
  l ∈ listeners (after (run ops) w).
Proof.
  intros Hin Hops. revert w Hin.
  induction Hops as [|op ops Hop _ IH]; intros w Hin.
  - exact Hin.
  - rewrite after_run_cons. by apply IH, exec_keeps_listener.
Qed.

(** X3 at work: listener 7 outlives an event, the handle of listener 8,
    a render and a second subscription of itself. *)
Lemma registered_listener_persists_witness :
  let ops := [MouseMove (mkMouseEvent 4); CallHandle (Unsubscribe 8%nat);
              RenderSync; Subscribe 7%nat] in
  7%nat ∈ listeners (after (run ops) (after (subscribe 7%nat) started)).
Proof.
  apply (registered_listener_persists 7%nat
    [MouseMove (mkMouseEvent 4); CallHandle (Unsubscribe 8%nat);
     RenderSync; Subscribe 7%nat] (after (subscribe 7%nat) started)).
  - rewrite listeners_after_subscribe. apply elem_of_union_l.
    by apply elem_of_singleton.
  - repeat constructor.
Defined.

(** X4: a listener that is not registered stays out through every trace
    that does not subscribe it: the store registers nothing on its own,
    and a removed listener does not come back. *)
Theorem absent_listener_stays_out
    (l : Listener) (ops : list Op) (w : World) :
  l ∉ listeners w →
  Forall (λ op, adds l op = false) ops →
  l ∉ listeners (after (run ops) w).
Proof.
  intros Hout Hops. revert w Hout.
  induction Hops as [|op ops Hop _ IH]; intros w Hout.
  - exact Hout.
  - rewrite after_run_cons. by apply IH, exec_keeps_out.
Qed.

(** X4 at work: listener 7 is not in a new store, and is not there after
    another listener subscribed, an event, a render and a stray call of
    one of its handles. *)
Lemma absent_listener_stays_out_witness :
  let ops := [Subscribe 8%nat; MouseMove (mkMouseEvent 4); RenderPlain;
              CallHandle (Unsubscribe 7%nat)] in
  7%nat ∉ listeners (after (run ops) started).
Proof.
  apply (absent_listener_stays_out 7%nat
    [Subscribe 8%nat; MouseMove (mkMouseEvent 4); RenderPlain;
     CallHandle (Unsubscribe 7%nat)] started).
  - apply not_elem_of_empty.
  - repeat constructor.
Defined.

(** X5: from a world in which the handler is attached, and as long as
    the store is not destroyed, the handler stays attached and writes
    the coordinate of every mousemove event, none skipped and none
    merged; the value read at the end is the coordinate of the last
    event of the trace. *)
Theorem every_event_written_until_destroy (ops : list Op) (w : World) :
  mousemove w = true →
  Forall (λ op, is_destroy op = false) ops →
  writes ops w = events_of ops ∧
  mousemove (after (run ops) w) = true ∧
  (getState (after (run ops) w)).1
    = Normal (default (x (data w)) (last (events_of ops))).
Proof.
  intros Hon Hops.
  assert (Hw : writes ops w = events_of ops ∧
               mousemove (after (run ops) w) = true).
  { revert w Hon. induction Hops as [|op ops Hop _ IH]; intros w Hon.
    - by split.
    - rewrite after_run_cons.
      assert (Hon' : mousemove (after (exec op) w) = true).
      { rewrite exec_mousemove, Hop. exact Hon. }
      destruct (IH _ Hon') as [IHw IHm]. split; [|exact IHm].
      cbn [writes]. rewrite IHw, Hon.
      destruct op as [ | l' | h | | event | | ]; reflexivity. }
  destruct Hw as [Hw Hm]. split; [exact Hw|]. split; [exact Hm|].
  rewrite getState_reads, run_x, Hw. reflexivity.
Qed.

(** X5 at work: three events with a subscription and a render between
    them; the value read at the end is that of the third. *)
Lemma every_event_written_until_destroy_witness :
  let ops := [MouseMove (mkMouseEvent 3); Subscribe 1%nat;
              MouseMove (mkMouseEvent 8); RenderSync;
              MouseMove (mkMouseEvent 5)] in
  writes ops started = [3; 8; 5] ∧
  mousemove (after (run ops) started) = true ∧
  (getState (after (run ops) started)).1 = Normal 5.
Proof.
  apply (every_event_written_until_destroy
    [MouseMove (mkMouseEvent 3); Subscribe 1%nat;
     MouseMove (mkMouseEvent 8); RenderSync;
     MouseMove (mkMouseEvent 5)] started).
  - reflexivity.
  - repeat constructor.
Defined.

(** X6: no trace of store operations, renders and mousemove events ever
    calls a listener, however many listeners are registered and however
    many events are delivered: the record of listener calls is at the
    end what it was at the start. *)
Theorem store_never_calls_a_listener (ops : list Op) (w : World) :
  invoked (after (run ops) w) = invoked w ∧
  invoked_by (run ops) w = [] ∧
  (run ops w).1 = Normal ().
Proof.
  split; [apply run_invoked|].
  split; [apply invoked_by_nil, run_invoked | apply run_normal].
Qed.

(** X7: whether or not the page has the container, the program leaves a
    store behind that holds 0, has no listener and is attached to the
    window, so that the next mousemove event is written to it; the page
    itself is left as it was. *)
Theorem program_leaves_store_running (event : MouseEvent) (w : World) :
  x (data (after program w)) = 0 ∧
  listeners (after program w) = ∅ ∧
  mousemove (after program w) = true ∧
  document (after program w) = document w ∧
  (getState (after (dispatch event) (after program w))).1
    = Normal (clientX event).
Proof.
  assert (Hp : ∃ rs, after program w =
    mkWorld (mkData 0) ∅ true (invoked w) (document w) rs).
  { unfold after, program, main, getElementById.
    unfold mbind, JS_bind, gets, createExternalStore, addEventListener, modify.
    simpl. destruct (document w !! "root") as [c|]; simpl; eauto. }
  destruct Hp as [rs ->]. repeat split; reflexivity.
Qed.

(** * The components *)

Lemma spin_returns {Time : Type} `{Clock Time}
    (start : Time) (rs rest : list Time) :
  spin start rs = Some rest ↔
  ∃ (taken : list Time) (stop : Time),
    rs = taken ++ stop :: rest ∧
    Forall (λ t, under_50 t start = true) taken ∧
    under_50 stop start = false.
Proof.
  split.
  - revert rest. induction rs as [|now rs IH]; intros rest Hspin.
    + discriminate.
    + simpl in Hspin. destruct (under_50 now start) eqn:Htest.
      * destruct (IH _ Hspin) as (taken & stop & -> & Htaken & Hstop).
        exists (now :: taken), stop. split; [reflexivity|].
        split; [by constructor | exact Hstop].
      * injection Hspin as <-. exists [], now. by split.
  - intros (taken & stop & -> & Htaken & Hstop).
    induction Htaken as [|t taken Ht _ IH]; simpl.
    + by rewrite Hstop.
    + by rewrite Ht.
Qed.

(** X8: [syncSleep] returns exactly when, after the time stamp it takes
    first, the clock gives one that fails the test
    [performance.now() - start < 50]; it returns at the first such time
    stamp, having read every time stamp before it.  It never throws and
    leaves the world as it is. *)
Theorem syncSleep_returns_at_first_late_stamp {Time : Type} `{Clock Time}
    (e : Env Time) (rest : list Time) :
  (syncSleep e = Some (Normal (), mkEnv (world e) rest) ↔
   ∃ (start : Time) (taken : list Time) (stop : Time),
     readings e = start :: taken ++ stop :: rest ∧
     Forall (λ t, under_50 t start = true) taken ∧
     under_50 stop start = false) ∧
  match syncSleep e with
  | Some (c, e') => c = Normal () ∧ world e' = world e
  | None => nap (readings e) = None
  end.
Proof.
  split.
  - unfold syncSleep, nap. destruct (readings e) as [|start rs]; split.
    + discriminate.
    + intros (start & taken & stop & Hnil & _). discriminate.
    + destruct (spin start rs) as [rest'|] eqn:Hspin; [|discriminate].
      intros [= <-]. exists start.
      apply spin_returns in Hspin as (taken & stop & -> & Htaken & Hstop).
      by exists taken, stop.
    + intros (start' & taken & stop & [= <- ->] & Htaken & Hstop).
      assert (Hspin : spin start (taken ++ stop :: rest) = Some rest).
      { apply spin_returns. by exists taken, stop. }
      by rewrite Hspin.
  - unfold syncSleep. by destruct (nap (readings e)).
Qed.

Lemma render_component_result {Time : Type} `{Clock Time}
    (c : ComponentType) (e : Env Time) :
  render_component c e =
  if sleeps c then
    match nap (readings e) with
    | Some rest =>
        Some (Normal (output_of (x (data (world e))) c), mkEnv (world e) rest)
    | None => None
    end
  else Some (Normal (output_of (x (data (world e))) c), e).
Proof.
  destruct c; try reflexivity.
  - unfold render_component, Coordinates, syncSleep, lift.
    unfold mbind, UI_bind, mret, UI_ret. rewrite useMousePosition_reads.
    simpl. by destruct (nap (readings e)).
  - unfold render_component, SyncCoordinates, syncSleep, lift.
    unfold mbind, UI_bind, mret, UI_ret. simpl.
    by destruct (nap (readings e)).
Qed.

Lemma render_all_result {Time : Type} `{Clock Time}
    (cs : list ComponentType) (e : Env Time) :
  render_all cs e =
  match naps (sleepers cs) (readings e) with
  | Some rest =>
      Some (Normal (output_of (x (data (world e))) <$> cs),
            mkEnv (world e) rest)
  | None => None
  end.
Proof.
  revert e. induction cs as [|c cs IH]; intros e.
  - by destruct e.
  - cbn [render_all]. unfold mbind at 1, UI_bind at 1.
    rewrite render_component_result. unfold sleepers.
    rewrite filter_cons. destruct (sleeps c) eqn:Hc.
    + rewrite decide_True by done. cbn [length naps].
      destruct (nap (readings e)) as [rest|]; [|done].
      unfold mbind, UI_bind. rewrite IH. cbn [readings world].
      fold (sleepers cs). by destruct (naps (sleepers cs) rest).
    + rewrite decide_False by done.
      unfold mbind, UI_bind. rewrite IH. fold (sleepers cs).
      by destruct (naps (sleepers cs) (readings e)).
Qed.

(** X9: a render that nothing interrupts shows one value everywhere:
    every [Coordinates] and every [SyncCoordinates] returns the tree for
    the value the store held when the render began, the world
    (listener set included) is left as it was, and nothing throws.  The
    render finishes exactly when the clock lets every [syncSleep]
    return.  For [App] these are the four emoji followed by three
    [Coordinates] and three [SyncCoordinates]. *)
Theorem uninterrupted_render_is_consistent {Time : Type} `{Clock Time}
    (cs : list ComponentType) (e : Env Time) :
  render_all cs e =
    match naps (sleepers cs) (readings e) with
    | Some rest =>
        Some (Normal (output_of (x (data (world e))) <$> cs),
              mkEnv (world e) rest)
    | None => None
    end ∧
  components_of App =
    [TYarn; TSnapshot; TYarn; TSnapshot;
     TCoordinates; TCoordinates; TCoordinates;
     TSyncCoordinates; TSyncCoordinates; TSyncCoordinates] ∧
  sleepers (components_of App) = 6%nat.
Proof.
  split; [apply render_all_result|]. split; reflexivity.
Qed.

Lemma show_x_inj (v1 v2 : Z) : show_x v1 = show_x v2 → v1 = v2.
Proof. intros [= ->]. reflexivity. Qed.

(** X10: a render that is interrupted tears.  When the handler is
    attached and a mousemove event with another coordinate is delivered
    between two [Coordinates], the first returns the tree for the old
    value and the second the tree for the event's coordinate, and the
    two trees differ. *)
Theorem interrupted_render_tears {Time : Type} `{Clock Time}
    (event : MouseEvent) (e : Env Time) (rest : list Time) :
  mousemove (world e) = true →
  clientX event ≠ x (data (world e)) →
  naps 2 (readings e) = Some rest →
  ∃ (a b : VNode) (e' : Env Time),
    interrupted_pair event e = Some (Normal (a, b), e') ∧
    a = show_x (x (data (world e))) ∧
    b = show_x (clientX event) ∧
    a ≠ b ∧
    readings e' = rest.
Proof.
  intros Hon Hmoved Hnaps. cbn [naps] in Hnaps.
  destruct (nap (readings e)) as [r1|] eqn:Hn1; [|discriminate].
  destruct (nap r1) as [r2|] eqn:Hn2; [|discriminate].
  injection Hnaps as ->.
  exists (show_x (x (data (world e)))), (show_x (clientX event)).
  exists (mkEnv (set_data (mkData (clientX event)) (world e)) rest).
  split; [|split; [reflexivity|split; [reflexivity|split; [|reflexivity]]]].
  - unfold interrupted_pair.
    pose proof (render_component_result TCoordinates e) as H1.
    cbn [render_component sleeps output_of] in H1.
    unfold mbind at 1, UI_bind at 1. rewrite H1, Hn1.
    unfold mbind at 1, UI_bind at 1. unfold lift at 1. cbn [world readings].
    rewrite dispatch_result, Hon. cbn [fst snd].
    pose proof (render_component_result TCoordinates
      (mkEnv (set_data (mkData (clientX event)) (world e)) r1)) as H2.
    cbn [render_component sleeps output_of world readings] in H2.
    unfold mbind at 1, UI_bind at 1. rewrite H2, Hn2. reflexivity.
  - intros Heq%show_x_inj. by apply Hmoved.
Qed.

(** X10 at work, on the clock that counts microseconds: each
    [syncSleep] takes a time stamp and returns at the next one, 50 ms
    later; the store holds 0 and the mouse moves to 5 in between. *)
Lemma interrupted_render_tears_witness :
  let e := mkEnv started [0; 50000; 50000; 100000] in
  ∃ (a b : VNode) (e' : Env Z),
    interrupted_pair (mkMouseEvent 5) e = Some (Normal (a, b), e') ∧
    a = show_x (x (data (world e))) ∧
    b = show_x (clientX (mkMouseEvent 5)) ∧
    a ≠ b ∧
    readings e' = [].
Proof.
  apply (interrupted_render_tears (mkMouseEvent 5)
    (mkEnv started [0; 50000; 50000; 100000]) []).
  - reflexivity.
  - discriminate.
  - reflexivity.
Defined.

(** * The flag of the application *)

Lemma settle_click (h : Handler) (s : AppState) :
  capture (settle (click h s)) = negb (capture (settle s)).
Proof.
  destruct h; unfold click, transitionHandler, startTransition, toggle,
    setCapture, settle; simpl; by rewrite foldl_app.
Qed.

Lemma pending_click (h : Handler) (s : AppState) :
  (pending (click h s)).*1 = (pending s).*1 ++ [asks h].
Proof.
  destruct h; unfold click, transitionHandler, startTransition, toggle,
    setCapture; simpl; by rewrite fmap_app.
Qed.

(** X11: both buttons drive the one flag.  After any sequence of clicks
    on the two buttons, once every requested update is applied, the flag
    is what it was when the number of clicks is even and the opposite
    when it is odd; every click requests one re-render, a low-priority
    one for the button with [transitionHandler] and an immediate one for
    the button with [toggle], in the order of the clicks. *)
Theorem clicks_toggle_capture (clicks : list Handler) (s : AppState) :
  capture (settle (foldl (λ s h, click h s) s clicks))
    = xorb (capture (settle s)) (Nat.odd (length clicks)) ∧
  (pending (foldl (λ s h, click h s) s clicks)).*1
    = (pending s).*1 ++ (asks <$> clicks).
Proof.
  revert s. induction clicks as [|h clicks IH]; intros s.
  - split; [apply symmetry, xorb_false_r | apply symmetry, app_nil_r].
  - cbn [foldl]. destruct (IH (click h s)) as [IHc IHp]. split.
    + rewrite IHc, settle_click. cbn [length].
      rewrite Nat.odd_succ, <- Nat.negb_odd.
      by destruct (capture (settle s)), (Nat.odd (length clicks)).
    + rewrite IHp, pending_click, <- app_assoc. reflexivity.
Qed.
